(** * Dex MCP server: the tool shim of [main.py] and the bridge it drives

    [backend/dex-mcp-upstream/main.py] registers sixteen MCP tools.  Each one
    is an [async def] that builds a [params] dict from its arguments and
    awaits one handler imported from [tools.browser], passing the module-level
    [context] object.  The handlers, the [Context] class and the WebSocket
    server live in other modules.

    The first part embeds the wrappers as small programs over two effects
    ([await handler(...)] and [logging.info]) and interprets them against
    arbitrary handlers.  The second part models the correlation table, the
    connection registry and the bridge facade, and [cleanup]. *)

From Stdlib Require Import ZArith.
From stdpp Require Import base option list gmap strings.

Local Open Scope string_scope.
Local Open Scope Z_scope.

(** ** Python values and dicts *)

(** The values that reach a [params] dict: [None], a [str] or an [int]. *)
Inductive value : Type :=
| VNone
| VStr (s : string)
| VInt (n : Z).

#[global] Instance value_eq_dec : EqDecision value.
Proof. solve_decision. Defined.

(** [bool(v)]: [None], the empty string and [0] are falsy. *)
Definition truthy (v : value) : bool :=
  match v with
  | VNone => false
  | VStr s => negb (String.eqb s "")
  | VInt n => negb (n =? 0)
  end.

(** [v is not None]. *)
Definition is_not_None (v : value) : bool :=
  match v with
  | VNone => false
  | _ => true
  end.

(** An argument declared [name: str = None] or [name: int = None]. *)
Definition str_arg (o : option string) : value := from_option VStr VNone o.
Definition int_arg (o : option Z) : value := from_option VInt VNone o.

(** A [params] dict: string keys, insertion by [params[k] = v]. *)
Abbreviation dict := (gmap string value).

(** ** Handlers and wrapper programs *)

(** The fifteen names imported from [tools.browser]. *)
Inductive handler : Type :=
| get_tabs_tool
| screenshot_tool
| navigate_tool
| select_tab_tool
| new_tab_tool
| close_tab_tool
| search_google_tool
| click_element_tool
| input_text_tool
| send_keys_tool
| grab_dom_tool
| capture_with_highlights_tool
| add_assistant_message_tool
| query_history_by_date_tool
| query_interests_by_date_tool.

#[global] Instance handler_eq_dec : EqDecision handler.
Proof. solve_decision. Defined.

(** A positional argument of a handler call: the module-level [context]
    object (there is one, created by [context = Context()]) or a dict. *)
Inductive pyarg : Type :=
| context
| ArgDict (d : dict).

#[global] Instance pyarg_eq_dec : EqDecision pyarg.
Proof. solve_decision. Defined.

(** The body of an [async def] tool: [return v], [await h(args)] followed by
    the rest of the body, or [logging.info(msg)] followed by the rest. *)
Inductive prog (A : Type) : Type :=
| Return (a : A)
| Await (h : handler) (args : list pyarg) (k : string → prog A)
| logging_info (msg : string) (k : prog A).

Arguments Return {A} a.
Arguments Await {A} h args k.
Arguments logging_info {A} msg k.

(** [return await h(args)]. *)
Definition return_await (h : handler) (args : list pyarg) : prog string :=
  Await h args (λ r, Return r).

(** ** The tools of [main.py], in source order *)

Definition get_tabs : prog string :=
  return_await get_tabs_tool [context].

Definition screenshot : prog string :=
  return_await screenshot_tool [context].

Definition navigate (url : string) : prog string :=
  return_await navigate_tool [context; ArgDict {[ "url" := VStr url ]}].

Definition navigate_tab (url : string) (tab_id : Z) : prog string :=
  return_await navigate_tool
    [context; ArgDict {[ "url" := VStr url; "tab_id" := VInt tab_id ]}].

Definition select_tab (tab_id : Z) : prog string :=
  return_await select_tab_tool [context; ArgDict {[ "tab_id" := VInt tab_id ]}].

Definition new_tab (url : option string) : prog string :=
  let params : dict := ∅ in
  let params :=
    if truthy (str_arg url) then <["url" := str_arg url]> params else params in
  return_await new_tab_tool [context; ArgDict params].

Definition close_tab (tab_id : option Z) : prog string :=
  let params : dict := ∅ in
  let params :=
    if is_not_None (int_arg tab_id)
    then <["tab_id" := int_arg tab_id]> params else params in
  return_await close_tab_tool [context; ArgDict params].

Definition search_google (query : string) (tab_id : option Z) : prog string :=
  let params : dict := {[ "query" := VStr query ]} in
  let params :=
    if is_not_None (int_arg tab_id)
    then <["tab_id" := int_arg tab_id]> params else params in
  return_await search_google_tool [context; ArgDict params].

Definition click_element (element_id : string) (tab_id : option Z) : prog string :=
  let params : dict := {[ "element_id" := VStr element_id ]} in
  let params :=
    if is_not_None (int_arg tab_id)
    then <["tab_id" := int_arg tab_id]> params else params in
  return_await click_element_tool [context; ArgDict params].

Definition input_text (element_id text : string) (tab_id : option Z) : prog string :=
  let params : dict :=
    {[ "element_id" := VStr element_id; "text" := VStr text ]} in
  let params :=
    if is_not_None (int_arg tab_id)
    then <["tab_id" := int_arg tab_id]> params else params in
  return_await input_text_tool [context; ArgDict params].

Definition send_keys (keys : string) (tab_id : option Z) : prog string :=
  let params : dict := {[ "keys" := VStr keys ]} in
  let params :=
    if is_not_None (int_arg tab_id)
    then <["tab_id" := int_arg tab_id]> params else params in
  return_await send_keys_tool [context; ArgDict params].

Definition grab_dom (tab_id : option Z) : prog string :=
  let params : dict := ∅ in
  let params :=
    if is_not_None (int_arg tab_id)
    then <["tab_id" := int_arg tab_id]> params else params in
  return_await grab_dom_tool [context; ArgDict params].

Definition capture_with_highlights (tab_id : option Z) : prog string :=
  let params : dict := ∅ in
  let params :=
    if is_not_None (int_arg tab_id)
    then <["tab_id" := int_arg tab_id]> params else params in
  return_await capture_with_highlights_tool [context; ArgDict params].

Definition add_assistant_message (message : string) : prog string :=
  return_await add_assistant_message_tool
    [context; ArgDict {[ "message" := VStr message ]}].

Definition query_history_by_date (date : string) : prog string :=
  logging_info ("query_history_by_date tool called with date=" +:+ date)
    (return_await query_history_by_date_tool
       [context; ArgDict {[ "date" := VStr date ]}]).

Definition query_interests_by_date (date : string) : prog string :=
  return_await query_interests_by_date_tool
    [context; ArgDict {[ "date" := VStr date ]}].

(** ** The tool registry

    [@mcp.tool()] registers every wrapper under its function name.  A
    [tool_call] is one request to the registry: the tool and the arguments its
    signature declares. *)
Inductive tool_call : Type :=
| call_get_tabs
| call_screenshot
| call_navigate (url : string)
| call_navigate_tab (url : string) (tab_id : Z)
| call_select_tab (tab_id : Z)
| call_new_tab (url : option string)
| call_close_tab (tab_id : option Z)
| call_search_google (query : string) (tab_id : option Z)
| call_click_element (element_id : string) (tab_id : option Z)
| call_input_text (element_id text : string) (tab_id : option Z)
| call_send_keys (keys : string) (tab_id : option Z)
| call_grab_dom (tab_id : option Z)
| call_capture_with_highlights (tab_id : option Z)
| call_add_assistant_message (message : string)
| call_query_history_by_date (date : string)
| call_query_interests_by_date (date : string).

Definition tool_name (c : tool_call) : string :=
  match c with
  | call_get_tabs => "get_tabs"
  | call_screenshot => "screenshot"
  | call_navigate _ => "navigate"
  | call_navigate_tab _ _ => "navigate_tab"
  | call_select_tab _ => "select_tab"
  | call_new_tab _ => "new_tab"
  | call_close_tab _ => "close_tab"
  | call_search_google _ _ => "search_google"
  | call_click_element _ _ => "click_element"
  | call_input_text _ _ _ => "input_text"
  | call_send_keys _ _ => "send_keys"
  | call_grab_dom _ => "grab_dom"
  | call_capture_with_highlights _ => "capture_with_highlights"
  | call_add_assistant_message _ => "add_assistant_message"
  | call_query_history_by_date _ => "query_history_by_date"
  | call_query_interests_by_date _ => "query_interests_by_date"
  end.

(** What the registry runs for a request. *)
Definition run_tool (c : tool_call) : prog string :=
  match c with
  | call_get_tabs => get_tabs
  | call_screenshot => screenshot
  | call_navigate url => navigate url
  | call_navigate_tab url tab_id => navigate_tab url tab_id
  | call_select_tab tab_id => select_tab tab_id
  | call_new_tab url => new_tab url
  | call_close_tab tab_id => close_tab tab_id
  | call_search_google query tab_id => search_google query tab_id
  | call_click_element element_id tab_id => click_element element_id tab_id
  | call_input_text element_id text tab_id => input_text element_id text tab_id
  | call_send_keys keys tab_id => send_keys keys tab_id
  | call_grab_dom tab_id => grab_dom tab_id
  | call_capture_with_highlights tab_id => capture_with_highlights tab_id
  | call_add_assistant_message message => add_assistant_message message
  | call_query_history_by_date date => query_history_by_date date
  | call_query_interests_by_date date => query_interests_by_date date
  end.

(** ** Reading a wrapper program *)

(** The first handler call of a program, with its positional arguments. *)
Fixpoint awaited {A} (p : prog A) : option (handler * list pyarg) :=
  match p with
  | Return _ => None
  | Await h args _ => Some (h, args)
  | logging_info _ k => awaited k
  end.

(** The messages logged before the first handler call. *)
Fixpoint logged {A} (p : prog A) : list string :=
  match p with
  | Return _ => []
  | Await _ _ _ => []
  | logging_info msg k => msg :: logged k
  end.

(** The dict passed after [context], when the call has one. *)
Definition forwarded_params {A} (p : prog A) : option dict :=
  match awaited p with
  | Some (_, [context; ArgDict d]) => Some d
  | _ => None
  end.

(** The keys and values handed to the handler: those of the forwarded dict,
    none when the handler is called with [context] alone. *)
Definition params_of {A} (p : prog A) : dict := default ∅ (forwarded_params p).

(** [forwards h args p]: [p] logs, then awaits [h(args)] once and returns
    what the call returned. *)
Inductive forwards (h : handler) (args : list pyarg) : prog string → Prop :=
| forwards_await k :
    (∀ r, k r = Return r) → forwards h args (Await h args k)
| forwards_log msg k :
    forwards h args k → forwards h args (logging_info msg k).

(** ** Running a wrapper against handlers *)

(** What a call yields: the returned value or the exception it raised. *)
Inductive result (A : Type) : Type :=
| Returned (a : A)
| Raised (e : string).

Arguments Returned {A} a.
Arguments Raised {A} e.

Section Exec.
(** Everything the handlers own behind [context]: the WebSocket bridge,
    the history store. *)
Variable Ext : Type.

Record World : Type := mkWorld {
  log : list string;  (* records emitted through [logging] *)
  ext : Ext;
}.

(** The imported handlers, unconstrained. *)
Definition handlers : Type :=
  handler → list pyarg → World → result string * World.

Definition emit (msg : string) (w : World) : World :=
  mkWorld (log w ++ [msg]) (ext w).

Definition emit_all (msgs : list string) (w : World) : World :=
  foldl (λ w m, emit m w) w msgs.

Variable env : handlers.

Fixpoint exec {A} (p : prog A) (w : World) : result A * World :=
  match p with
  | Return a => (Returned a, w)
  | logging_info msg k => exec k (emit msg w)
  | Await h args k =>
      match env h args w with
      | (Returned r, w') => exec (k r) w'
      | (Raised e, w') => (Raised e, w')
      end
  end.
End Exec.

Arguments log {Ext} _.
Arguments ext {Ext} _.
Arguments mkWorld {Ext} _ _.
Arguments emit {Ext} _ _.
Arguments emit_all {Ext} _ _.
Arguments exec {Ext} env {A} p w.

(** ** The bridge behind [context]

    [context.py], [ws_server.py] and [tools/browser.py] are imported by
    [main.py]; the definitions of this module follow the specification of the
    subsystem they implement. *)
Module Bridge.

(** Modelled from the spec: the error taxonomy of the bridge (section 7);
    the module raising these errors is imported by [main.py]. *)
Inductive BridgeError : Type :=
| UnknownTab
| NoActiveConnection
| Timeout
| Remote (code message : string)
| ConnectionLost
| ShuttingDown
| ProtocolViolation.

#[global] Instance BridgeError_eq_dec : EqDecision BridgeError.
Proof. solve_decision. Defined.

(** Modelled from the spec: the single-resolution slot of a PendingRequest,
    [success(payload) | failure(reason)] (section 3). *)
Inductive Outcome : Type :=
| success (payload : string)
| failure (reason : BridgeError).

#[global] Instance Outcome_eq_dec : EqDecision Outcome.
Proof. solve_decision. Defined.

(** Modelled from the spec: a Connection of the registry (section 3):
    identifier, socket handle, known tab identifiers, liveness flag and
    last-activity timestamp. *)
Record Connection : Type := mkConnection {
  conn_id : N;
  socket : N;
  tabs : gset Z;
  live : bool;
  last_activity : N;
}.

(** Modelled from the spec: a PendingRequest of the correlation table
    (section 3); the correlation id is its key in the table. *)
Record PendingRequest : Type := mkPending {
  target : N;
  issued : N;
  deadline : N;
}.

(** Modelled from the spec: the Command frame
    [{ id, op, tabId?, args }] written to a connection (section 6). *)
Record Command : Type := mkCommand {
  frame_id : N;
  frame_op : string;
  frame_tab : option Z;
  frame_args : dict;
}.

(** Modelled from the spec: the Correlation Table (section 4.2).  [pending]
    holds the live entries, [next_id] the next correlation id (ids increase
    monotonically), [delivered] the outcomes handed to the awaiting callers
    in the order they were resolved, [dropped] the ids of the responses that
    were dropped and logged. *)
Record CorrelationTable : Type := mkTable {
  pending : gmap N PendingRequest;
  next_id : N;
  delivered : list (N * Outcome);
  dropped : list N;
}.

Definition empty_table : CorrelationTable := mkTable ∅ 0%N [] [].

(** Modelled from the spec: [allocate(connectionId, timeout)] of the
    Correlation Table (section 4.2); the returned id stands for the awaitable. *)
Definition allocate (conn timeout now : N) (t : CorrelationTable)
  : N * CorrelationTable :=
  let id := next_id t in
  (id, mkTable (<[id := mkPending conn now (now + timeout)%N]> (pending t))
               (N.succ id) (delivered t) (dropped t)).

(** Modelled from the spec: [resolve(correlationId, outcome) -> bool] of the
    Correlation Table (section 4.2): a live entry is removed and its outcome
    delivered; a response for any other id is dropped and logged. *)
Definition resolve (id : N) (o : Outcome) (t : CorrelationTable)
  : bool * CorrelationTable :=
  match pending t !! id with
  | Some _ =>
      (true, mkTable (delete id (pending t)) (next_id t)
                     (delivered t ++ [(id, o)]) (dropped t))
  | None =>
      (false, mkTable (pending t) (next_id t) (delivered t) (dropped t ++ [id]))
  end.

(** The ids of the live entries that satisfy [P], in table order. *)
Definition entries_where (P : PendingRequest → bool) (t : CorrelationTable)
  : list N :=
  (filter (λ kv, P kv.2 = true) (map_to_list (pending t))).*1.

(** Resolving a batch of entries with one outcome. *)
Definition resolve_all (ids : list N) (o : Outcome) (t : CorrelationTable)
  : CorrelationTable :=
  foldl (λ t id, (resolve id o t).2) t ids.

(** Modelled from the spec: [cancelAll(connectionId, reason)] of the
    Correlation Table (section 4.2): every pending entry of the connection is
    resolved with a failure outcome. *)
Definition cancelAll (conn : N) (reason : BridgeError) (t : CorrelationTable)
  : CorrelationTable :=
  resolve_all (entries_where (λ pr, (target pr =? conn)%N) t) (failure reason) t.

(** Modelled from the spec: the deadline sweep of the Correlation Table
    (section 4.2): on expiry an entry is resolved with [Timeout] and removed. *)
Definition sweep (now : N) (t : CorrelationTable) : CorrelationTable :=
  resolve_all (entries_where (λ pr, (deadline pr <=? now)%N) t) (failure Timeout) t.

(** Modelled from the spec: the Connection Registry (section 4.1).  [conns]
    lists the registered connections, the one whose tab report is the most
    recent first; [default_conn] is the designated default connection. *)
Record Registry : Type := mkRegistry {
  conns : list Connection;
  default_conn : option N;
  next_conn : N;
}.

Definition empty_registry : Registry := mkRegistry [] None 0%N.

Definition owns (tab : Z) (c : Connection) : bool := bool_decide (tab ∈ tabs c).

Definition is_conn (id : N) (c : Connection) : bool := (conn_id c =? id)%N.

(** Modelled from the spec: [resolveTarget(tabId?)] of the Connection
    Registry (section 4.1). *)
Definition resolveTarget (tab : option Z) (r : Registry) : BridgeError + N :=
  match tab with
  | Some t =>
      match List.find (owns t) (conns r) with
      | Some c => inr (conn_id c)
      | None => inl UnknownTab
      end
  | None =>
      match default_conn r with
      | Some id => inr id
      | None => inl NoActiveConnection
      end
  end.

(** Modelled from the spec: [register(connection) -> connectionId] of the
    Connection Registry (section 4.1), after the handshake in which the
    extension announces its tab snapshot (section 4.3). *)
Definition register (sock : N) (ts : gset Z) (now : N) (r : Registry)
  : N * Registry :=
  let id := next_conn r in
  (id, mkRegistry (mkConnection id sock ts true now :: conns r)
                  (Some (default id (default_conn r)))
                  (N.succ id)).

(** Modelled from the spec: the [tabs-updated] event (sections 4.3 and 6):
    the reporting connection's snapshot is replaced and it becomes the most
    recent reporter. *)
Definition report_tabs (id : N) (ts : gset Z) (now : N) (r : Registry) : Registry :=
  match List.find (is_conn id) (conns r) with
  | Some c =>
      mkRegistry
        (mkConnection id (socket c) ts (live c) now
           :: List.filter (λ c, negb (is_conn id c)) (conns r))
        (default_conn r) (next_conn r)
  | None => r
  end.

(** The registry without connection [id]; a default that pointed to it moves
    to the most recent remaining reporter. *)
Definition remove_conn (id : N) (r : Registry) : Registry :=
  let rest := List.filter (λ c, negb (is_conn id c)) (conns r) in
  mkRegistry rest
    (match default_conn r with
     | Some d => if (d =? id)%N then conn_id <$> head rest else Some d
     | None => None
     end)
    (next_conn r).

(** Modelled from the spec: the state the [Context] object of [context.py]
    holds: registry, correlation table, the Command frames written (with the
    connection written to) and the ids of the connections closed. *)
Record Bridge : Type := mkBridge {
  registry : Registry;
  table : CorrelationTable;
  frames : list (N * Command);
  closed : list N;
}.

Definition empty_bridge : Bridge := mkBridge empty_registry empty_table [] [].

(** Modelled from the spec: [unregister(connectionId)] (section 4.1) and the
    close path of the listener (section 4.3): the connection leaves the
    registry and every PendingRequest addressed to it is cancelled with
    [ConnectionLost]. *)
Definition unregister (id : N) (b : Bridge) : Bridge :=
  mkBridge (remove_conn id (registry b))
           (cancelAll id ConnectionLost (table b))
           (frames b)
           (closed b ++ [id]).

(** Whether a write to connection [id] succeeds: its socket is live. *)
Definition writable (id : N) (r : Registry) : bool :=
  match List.find (is_conn id) (conns r) with
  | Some c => live c
  | None => false
  end.

(** Modelled from the spec: the steps of [call(operation, tabId?, args,
    timeout)] of the Bridge Facade up to the await (section 4.4): resolve the
    target, allocate the entry, write the frame; a failed write is a
    connection loss.  The result is the immediate failure or the correlation
    id whose outcome the caller awaits. *)
Definition call (op : string) (tab : option Z) (args : dict) (timeout now : N)
    (b : Bridge) : (BridgeError + N) * Bridge :=
  match resolveTarget tab (registry b) with
  | inl e => (inl e, b)
  | inr conn =>
      let '(id, t) := allocate conn timeout now (table b) in
      if writable conn (registry b)
      then (inr id,
            mkBridge (registry b) t
                     (frames b ++ [(conn, mkCommand id op tab args)]) (closed b))
      else (inr id, unregister conn (mkBridge (registry b) t (frames b) (closed b)))
  end.

(** Modelled from the spec: what [Context.close()] must do on graceful
    shutdown (section 6): every pending entry is resolved with [ShuttingDown]
    and every connection is closed. *)
Definition close (b : Bridge) : Bridge :=
  mkBridge (mkRegistry [] None (next_conn (registry b)))
           (resolve_all (entries_where (λ _, true) (table b))
                        (failure ShuttingDown) (table b))
           (frames b)
           (closed b ++ (conn_id <$> conns (registry b))).

(** What happens to the bridge: the operations of the registry, the facade,
    the listener's read loop and the deadline timer. *)
Inductive bridge_op : Type :=
| do_register (sock : N) (ts : gset Z) (now : N)
| do_unregister (id : N)
| do_report (id : N) (ts : gset Z) (now : N)
| do_call (op : string) (tab : option Z) (args : dict) (timeout now : N)
| do_response (id : N) (o : Outcome)
| do_tick (now : N)
| do_close.

Definition with_registry (r : Registry) (b : Bridge) : Bridge :=
  mkBridge r (table b) (frames b) (closed b).

Definition with_table (t : CorrelationTable) (b : Bridge) : Bridge :=
  mkBridge (registry b) t (frames b) (closed b).

Definition bridge_step (b : Bridge) (o : bridge_op) : Bridge :=
  match o with
  | do_register sock ts now => with_registry (register sock ts now (registry b)).2 b
  | do_unregister id => unregister id b
  | do_report id ts now => with_registry (report_tabs id ts now (registry b)) b
  | do_call op tab args timeout now => (call op tab args timeout now b).2
  | do_response id o => with_table (resolve id o (table b)).2 b
  | do_tick now => with_table (sweep now (table b)) b
  | do_close => close b
  end.

(** The bridge after a history of operations, from the empty bridge. *)
Definition bridge_run (ops : list bridge_op) : Bridge :=
  foldl bridge_step empty_bridge ops.

End Bridge.

(** ** Process shutdown: [cleanup] of [main.py] *)

(** The WebSocket server object returned by [start_websocket_server]. *)
Record Server : Type := mkServer {
  listening : bool;  (* the listening socket is held *)
}.

(** The module globals [context] and [ws_server], and the log. *)
Record Process : Type := mkProcess {
  ctx : Bridge.Bridge;
  ws_server : option Server;
  records : list string;
}.

(** [logger.info(msg)]. *)
Definition logger_info (msg : string) (st : Process) : Process :=
  mkProcess (ctx st) (ws_server st) (records st ++ [msg]).

(** [await context.close()]. *)
Definition context_close (st : Process) : Process :=
  mkProcess (Bridge.close (ctx st)) (ws_server st) (records st).

(** Modelled from the spec: [ws_server.close()] followed by
    [await ws_server.wait_closed()] releases the listening socket; the server
    object comes from [ws_server.py]. *)
Definition server_close (s : Server) : Server := mkServer false.

(** [if ws_server: ws_server.close(); await ws_server.wait_closed()]. *)
Definition close_ws_server (st : Process) : Process :=
  match ws_server st with
  | Some s => mkProcess (ctx st) (Some (server_close s)) (records st)
  | None => st
  end.

(** The statements of [cleanup], in source order. *)
Definition cleanup_body : list (Process → Process) :=
  [ logger_info "Shutting down servers...";
    context_close;
    close_ws_server;
    logger_info "Shutdown complete" ].

Definition run_body (body : list (Process → Process)) (st : Process) : Process :=
  foldl (λ s f, f s) st body.

Definition cleanup (st : Process) : Process := run_body cleanup_body st.

(** ** Process start-up and the main block of [main.py] *)

(** The exceptions the main block tells apart: [KeyboardInterrupt] and
    [SystemExit] derive from [BaseException] only, everything caught by
    [except Exception] is an [Exception] with its message [str(e)]. *)
Inductive exception : Type :=
| KeyboardInterrupt
| SystemExit (code : Z)
| Exception (msg : string).

(** How a statement ends: normally with a value, or by raising. *)
Inductive completion (A : Type) : Type :=
| Done (a : A)
| Raise (e : exception).

Arguments Done {A} a.
Arguments Raise {A} e.

(** [logger.error(msg)]; the log keeps the messages, not their levels. *)
Definition logger_error (msg : string) (st : Process) : Process :=
  mkProcess (ctx st) (ws_server st) (records st ++ [msg]).

Section CleanupWith.
(** [await context.close()] with whatever [context.py] makes it do: it
    returns or raises, and leaves the bridge in some state. *)
Variable context_close_impl : Bridge.Bridge → completion unit * Bridge.Bridge.

(** [ws_server.close()] followed by [await ws_server.wait_closed()], with the
    bridge state it runs in: it returns or raises, and leaves the server in
    some state. *)
Variable ws_server_close_impl :
  Bridge.Bridge → Server → completion unit * Server.

(** [cleanup], statement by statement, over these two collaborators: an
    exception raised by either ends [cleanup] there. *)
Definition cleanup_with (st : Process) : completion unit * Process :=
  let st := logger_info "Shutting down servers..." st in
  match context_close_impl (ctx st) with
  | (Raise e, b) => (Raise e, mkProcess b (ws_server st) (records st))
  | (Done _, b) =>
      match ws_server st with
      | Some srv =>
          match ws_server_close_impl b srv with
          | (Raise e, srv') => (Raise e, mkProcess b (Some srv') (records st))
          | (Done _, srv') =>
              (Done tt,
               logger_info "Shutdown complete"
                 (mkProcess b (Some srv') (records st)))
          end
      | None =>
          (Done tt,
           logger_info "Shutdown complete" (mkProcess b None (records st)))
      end
  end.
End CleanupWith.

Section Main.
(** [start_websocket_server(context)] of [ws_server.py]: it returns the
    server or raises, and may change what [context] holds. *)
Variable start_websocket_server :
  Bridge.Bridge → completion Server * Bridge.Bridge.

(** Everything between a successful start and the exit of
    [loop.run_forever()]: the MCP thread, the tool calls, the signal handler.
    It ends when the loop is stopped or by an exception. *)
Variable serve : Process → completion unit * Process.

(** [start_background_services]: the [try] assigns the global [ws_server];
    [except Exception as e] logs and re-raises. *)
Definition start_background_services (st : Process) : completion unit * Process :=
  let st := logger_info "Starting Dex MCP Server..." st in
  match start_websocket_server (ctx st) with
  | (Done srv, b) =>
      (Done tt,
       logger_info "WebSocket server started successfully"
         (mkProcess b (Some srv) (records st)))
  | (Raise (Exception e), b) =>
      (Raise (Exception e),
       logger_error ("Failed to start WebSocket server: " +:+ e)
         (mkProcess b (ws_server st) (records st)))
  | (Raise e, b) => (Raise e, mkProcess b (ws_server st) (records st))
  end.

(** The [try] block of the main block: start the services, then serve. *)
Definition main_try (st : Process) : completion unit * Process :=
  match start_background_services st with
  | (Done _, st) => serve st
  | (Raise e, st) => (Raise e, st)
  end.

(** The [except KeyboardInterrupt] and [except Exception as e] clauses. *)
Definition main_except (r : completion unit) (st : Process)
  : completion unit * Process :=
  match r with
  | Raise KeyboardInterrupt => (Done tt, logger_info "Interrupted by user" st)
  | Raise (Exception e) => (Done tt, logger_error ("Fatal error: " +:+ e) st)
  | _ => (r, st)
  end.

(** The main block on the paths where no signal handler ran and [cleanup]
    returns: [try], the two [except] clauses, and one [cleanup] in [finally];
    an exception no clause caught goes on after [finally].  A [cleanup] task
    queued by [signal_handler] and a [cleanup] that raises (swallowed by
    [except Exception: pass]) are not part of this definition. *)
Definition main (st : Process) : completion unit * Process :=
  let '(r, st) := main_try st in
  let '(r, st) := main_except r st in
  (r, cleanup st).
End Main.

(** The state the module starts in: [context = Context()], [ws_server = None]. *)
Definition initial_process : Process := mkProcess Bridge.empty_bridge None [].

(** ** Vocabulary of the statements about the tools *)

(** The handler each registered tool stands in front of. *)
Definition handler_of (c : tool_call) : handler :=
  match c with
  | call_get_tabs => get_tabs_tool
  | call_screenshot => screenshot_tool
  | call_navigate _ => navigate_tool
  | call_navigate_tab _ _ => navigate_tool
  | call_select_tab _ => select_tab_tool
  | call_new_tab _ => new_tab_tool
  | call_close_tab _ => close_tab_tool
  | call_search_google _ _ => search_google_tool
  | call_click_element _ _ => click_element_tool
  | call_input_text _ _ _ => input_text_tool
  | call_send_keys _ _ => send_keys_tool
  | call_grab_dom _ => grab_dom_tool
  | call_capture_with_highlights _ => capture_with_highlights_tool
  | call_add_assistant_message _ => add_assistant_message_tool
  | call_query_history_by_date _ => query_history_by_date_tool
  | call_query_interests_by_date _ => query_interests_by_date_tool
  end.

(** The names under which [main.py] imports the handlers. *)
Definition handler_name (h : handler) : string :=
  match h with
  | get_tabs_tool => "get_tabs_tool"
  | screenshot_tool => "screenshot_tool"
  | navigate_tool => "navigate_tool"
  | select_tab_tool => "select_tab_tool"
  | new_tab_tool => "new_tab_tool"
  | close_tab_tool => "close_tab_tool"
  | search_google_tool => "search_google_tool"
  | click_element_tool => "click_element_tool"
  | input_text_tool => "input_text_tool"
  | send_keys_tool => "send_keys_tool"
  | grab_dom_tool => "grab_dom_tool"
  | capture_with_highlights_tool => "capture_with_highlights_tool"
  | add_assistant_message_tool => "add_assistant_message_tool"
  | query_history_by_date_tool => "query_history_by_date_tool"
  | query_interests_by_date_tool => "query_interests_by_date_tool"
  end.

(** The positional arguments after the handler name: [context], then the
    forwarded dict when the wrapper builds one. *)
Definition call_args {A} (p : prog A) : list pyarg :=
  context :: from_option (λ d, [ArgDict d]) [] (forwarded_params p).

(** The tools declared without parameters. *)
Definition takes_no_argument (c : tool_call) : bool :=
  match c with
  | call_get_tabs | call_screenshot => true
  | _ => false
  end.

(** [params] carries [tab_id] exactly when the caller gave one, and then with
    the caller's value. *)
Definition tab_id_iff_given (p : prog string) (tab_id : option Z) : Prop :=
  (is_Some (params_of p !! "tab_id") ↔ tab_id ≠ None) ∧
  params_of p !! "tab_id" = VInt <$> tab_id.

(** ** The operation catalogue *)

(** The catalogue of operations with the arguments each one requires, under
    the names the wrappers use ([tab_id] for tabId, [element_id] for
    elementId).  [new_tab] and [close_tab] are listed with an optional
    argument only, so they require none. *)
Definition catalogue : list (string * list string) :=
  [ ("get_tabs", []);
    ("screenshot", []);
    ("navigate", ["url"]);
    ("select_tab", ["tab_id"]);
    ("new_tab", []);
    ("close_tab", []);
    ("search_google", ["query"]);
    ("click_element", ["element_id"]);
    ("input_text", ["element_id"; "text"]);
    ("send_keys", ["keys"]);
    ("grab_dom", []);
    ("capture_with_highlights", []) ].

Fixpoint required_args (name : string) (cat : list (string * list string))
  : option (list string) :=
  match cat with
  | [] => None
  | (n, req) :: cat => if String.eqb n name then Some req else required_args name cat
  end.

(** A keyword argument the caller may leave out: absent when [None]. *)
Definition optional_kw (k : string) (v : value) (d : dict) : dict :=
  match v with
  | VNone => d
  | _ => <[k := v]> d
  end.

(** The keyword arguments the caller supplies with a request. *)
Definition supplied (c : tool_call) : dict :=
  match c with
  | call_get_tabs | call_screenshot => ∅
  | call_navigate url => {[ "url" := VStr url ]}
  | call_navigate_tab url tab_id => {[ "url" := VStr url; "tab_id" := VInt tab_id ]}
  | call_select_tab tab_id => {[ "tab_id" := VInt tab_id ]}
  | call_new_tab url => optional_kw "url" (str_arg url) ∅
  | call_close_tab tab_id => optional_kw "tab_id" (int_arg tab_id) ∅
  | call_search_google query tab_id =>
      optional_kw "tab_id" (int_arg tab_id) {[ "query" := VStr query ]}
  | call_click_element element_id tab_id =>
      optional_kw "tab_id" (int_arg tab_id) {[ "element_id" := VStr element_id ]}
  | call_input_text element_id text tab_id =>
      optional_kw "tab_id" (int_arg tab_id)
        {[ "element_id" := VStr element_id; "text" := VStr text ]}
  | call_send_keys keys tab_id =>
      optional_kw "tab_id" (int_arg tab_id) {[ "keys" := VStr keys ]}
  | call_grab_dom tab_id => optional_kw "tab_id" (int_arg tab_id) ∅
  | call_capture_with_highlights tab_id => optional_kw "tab_id" (int_arg tab_id) ∅
  | call_add_assistant_message message => {[ "message" := VStr message ]}
  | call_query_history_by_date date => {[ "date" := VStr date ]}
  | call_query_interests_by_date date => {[ "date" := VStr date ]}
  end.

(** The dict the catalogue sentence describes: of what the caller supplies,
    the required arguments and [tab_id]. *)
Definition required_plus_tab_id (req : list string) (c : tool_call) : dict :=
  filter (λ kv, kv.1 ∈ req ∨ kv.1 = "tab_id") (supplied c).

(** The same, with the non-empty [url] of [new_tab] let through as well. *)
Definition required_plus_optional (req : list string) (c : tool_call) : dict :=
  filter (λ kv, kv.1 ∈ req ∨ kv.1 = "tab_id" ∨
                (tool_name c = "new_tab" ∧ kv.1 = "url" ∧ truthy kv.2 = true))
         (supplied c).

(** ** Vocabulary of the statements about the bridge *)

Import Bridge.

(** No id was delivered twice, a delivered id is no longer pending, and
    every id handed out so far lies below [next_id]. *)
Record table_ok (t : CorrelationTable) : Prop := mk_table_ok {
  ok_nodup : NoDup (delivered t).*1;
  ok_gone : ∀ id, id ∈ (delivered t).*1 → pending t !! id = None;
  ok_pending_below : ∀ id, is_Some (pending t !! id) → (id < next_id t)%N;
  ok_delivered_below : ∀ id, id ∈ (delivered t).*1 → (id < next_id t)%N;
}.

(** * Theorems about the tools *)

Section ExecFacts.
Variable Ext : Type.
Variable env : handlers Ext.

Lemma ext_emit_all (msgs : list string) (w : World Ext) :
  ext (emit_all msgs w) = ext w.
Proof.
  unfold emit_all. revert w.
  induction msgs as [|m msgs IH]; intros w; simpl; [done|].
  by rewrite IH.
Qed.

Lemma forwards_exec (h : handler) (args : list pyarg) (p : prog string)
    (w : World Ext) :
  forwards h args p →
  exec env p w = env h args (emit_all (logged p) w).
Proof.
  intros Hf. revert w. induction Hf as [k Hk|msg k _ IH]; intros w; simpl.
  - destruct (env h args w) as [[r|e] w']; [|done].
    by rewrite Hk.
  - apply IH.
Qed.
End ExecFacts.

Lemma forwards_awaited (h : handler) (args : list pyarg) (p : prog string) :
  forwards h args p → awaited p = Some (h, args).
Proof. induction 1; simpl; auto. Qed.

Lemma forwards_return_await (h : handler) (args : list pyarg) :
  forwards h args (return_await h args).
Proof. by constructor. Qed.

Create HintDb tools.
#[local] Hint Resolve forwards_return_await : tools.
#[local] Hint Constructors forwards : tools.

(** Every registered tool logs at most, then awaits its own handler once on
    [context] and the dict it built, and returns the call's value. *)
Lemma run_tool_forwards (c : tool_call) :
  forwards (handler_of c) (call_args (run_tool c)) (run_tool c).
Proof.
  destruct c; cbn -[truthy is_not_None]; auto with tools.
  apply forwards_log, forwards_return_await.
Qed.

(** C1, as stated, fails on the two tools without arguments: [get_tabs] and
    [screenshot] call their handler as [handler(context)]; no params dict is
    built or passed. *)
Lemma get_tabs_passes_context_alone :
  awaited (run_tool call_get_tabs) = Some (get_tabs_tool, [context]) ∧
  awaited (run_tool call_screenshot) = Some (screenshot_tool, [context]) ∧
  forwarded_params (run_tool call_get_tabs) = None ∧
  forwarded_params (run_tool call_screenshot) = None ∧
  ¬ ∃ d : dict,
      awaited (run_tool call_get_tabs)
      = Some (handler_of call_get_tabs, [context; ArgDict d]).
Proof.
  do 4 (split; [reflexivity|]).
  intros [d Hd]. cbn in Hd. discriminate Hd.
Qed.

(** C1, amended. For every registered tool and all argument values, running
    the wrapper against arbitrary handlers yields exactly what its one handler
    yields -- the returned string or the raised exception, and the same final
    state -- when called on the shared [context] alone for [get_tabs] and
    [screenshot], and on the shared [context] followed by the params dict the
    wrapper built from its arguments for every other tool.  The handler is
    awaited on a state whose bridge part is the caller's. *)
Theorem tool_returns_handler_result (Ext : Type) (env : handlers Ext)
    (c : tool_call) (w : World Ext) :
  awaited (run_tool c) = Some (handler_of c, call_args (run_tool c)) ∧
  call_args (run_tool c)
    = (if takes_no_argument c then [context]
       else [context; ArgDict (params_of (run_tool c))]) ∧
  ext (emit_all (logged (run_tool c)) w) = ext w ∧
  exec env (run_tool c) w
    = env (handler_of c) (call_args (run_tool c)) (emit_all (logged (run_tool c)) w).
Proof.
  pose proof (run_tool_forwards c) as Hf.
  split; [by apply forwards_awaited|].
  split.
  { destruct c; cbn -[is_not_None truthy]; try reflexivity;
      match goal with
      | |- context [truthy ?v] => by destruct (truthy v)
      | |- context [is_not_None ?v] => by destruct (is_not_None v)
      end. }
  split; [apply ext_emit_all|].
  by apply forwards_exec.
Qed.

(** The forwarded dicts, wrapper by wrapper. *)

Lemma params_if_tab_id (base : dict) (tab_id : option Z) :
  (if is_not_None (int_arg tab_id)
   then <["tab_id" := int_arg tab_id]> base else base)
  = from_option (λ n, <["tab_id" := VInt n]> base) base tab_id.
Proof. by destruct tab_id. Qed.

Lemma truthy_str_arg (url : option string) :
  truthy (str_arg url) = true ↔ ∃ s, url = Some s ∧ s ≠ "".
Proof.
  destruct url as [s|]; simpl.
  - rewrite negb_true_iff, String.eqb_neq. split.
    + intros Hs. by exists s.
    + intros (s' & [= <-] & Hs). done.
  - split; [done|]. by intros (s & ? & _).
Qed.

Lemma tab_id_iff_given_intro (base : dict) (tab_id : option Z) (p : prog string) :
  base !! "tab_id" = None →
  params_of p = from_option (λ n, <["tab_id" := VInt n]> base) base tab_id →
  tab_id_iff_given p tab_id.
Proof.
  intros Hbase Hp. unfold tab_id_iff_given. rewrite Hp.
  destruct tab_id as [n|]; simpl.
  - rewrite lookup_insert_eq. split; [|done].
    split; [done|]. intros _. by eexists.
  - rewrite Hbase. split; [|done].
    split; [by intros [? ?]|done].
Qed.

(** C7. For every date string, [query_history_by_date] and
    [query_interests_by_date] pass exactly [{"date": date}] after [context] to
    their store handlers, and yield whatever the handler yields, unchanged;
    the only thing the wrappers do besides is one [logging.info] record, so
    the handler starts from the caller's bridge state and the final state is
    the handler's. *)
Theorem date_queries_forward_date (Ext : Type) (env : handlers Ext)
    (date : string) (w : World Ext) :
  let args := [context; ArgDict {[ "date" := VStr date ]}] in
  let w0 := emit ("query_history_by_date tool called with date=" +:+ date) w in
  awaited (query_history_by_date date) = Some (query_history_by_date_tool, args) ∧
  awaited (query_interests_by_date date) = Some (query_interests_by_date_tool, args) ∧
  ext w0 = ext w ∧
  exec env (query_history_by_date date) w = env query_history_by_date_tool args w0 ∧
  exec env (query_interests_by_date date) w = env query_interests_by_date_tool args w.
Proof.
  intros args w0. repeat split.
  - exact (forwards_exec Ext env _ _ _ w
             (forwards_log _ _ _ _ (forwards_return_await _ args))).
  - exact (forwards_exec Ext env _ _ _ w (forwards_return_await _ args)).
Qed.

(** C8. [new_tab] treats a falsy [url] as absent: with [url=None] or
    [url=""] the dict handed to [new_tab_tool] is empty, so it has no ["url"]
    key; with a non-empty [url] it is exactly [{"url": url}]. *)
Theorem new_tab_url_only_when_truthy (url : string) :
  url ≠ "" →
  forwarded_params (new_tab None) = Some ∅ ∧
  forwarded_params (new_tab (Some "")) = Some ∅ ∧
  params_of (new_tab None) !! "url" = None ∧
  params_of (new_tab (Some "")) !! "url" = None ∧
  forwarded_params (new_tab (Some url)) = Some {[ "url" := VStr url ]}.
Proof.
  intros Hurl.
  assert (truthy (str_arg (Some url)) = true) as Ht.
  { apply truthy_str_arg. by exists url. }
  do 4 (split; [reflexivity|]).
  unfold new_tab, forwarded_params. rewrite Ht. cbn.
  by rewrite insert_empty.
Qed.

Lemma new_tab_url_only_when_truthy_witness :
  forwarded_params (new_tab (Some "https://example.com"))
  = Some {[ "url" := VStr "https://example.com" ]}.
Proof.
  apply (new_tab_url_only_when_truthy "https://example.com"). discriminate.
Defined.

(** C9. For each wrapper with an optional [tab_id] -- [close_tab],
    [search_google], [click_element], [input_text], [send_keys], [grab_dom],
    [capture_with_highlights] -- the forwarded dict has the ["tab_id"] key if
    and only if the caller passed a [tab_id] that is not [None], and then
    with that value; [tab_id=0] is forwarded, since the test is
    [is not None] and not truthiness. *)
Theorem optional_tab_id_forwarded (tab_id : option Z)
    (query element_id text keys : string) :
  tab_id_iff_given (close_tab tab_id) tab_id ∧
  tab_id_iff_given (search_google query tab_id) tab_id ∧
  tab_id_iff_given (click_element element_id tab_id) tab_id ∧
  tab_id_iff_given (input_text element_id text tab_id) tab_id ∧
  tab_id_iff_given (send_keys keys tab_id) tab_id ∧
  tab_id_iff_given (grab_dom tab_id) tab_id ∧
  tab_id_iff_given (capture_with_highlights tab_id) tab_id ∧
  truthy (VInt 0) = false ∧
  params_of (close_tab (Some 0)) !! "tab_id" = Some (VInt 0) ∧
  params_of (click_element element_id (Some 0)) !! "tab_id" = Some (VInt 0) ∧
  params_of (grab_dom (Some 0)) !! "tab_id" = Some (VInt 0).
Proof.
  repeat match goal with
         | |- tab_id_iff_given _ _ ∧ _ => split
         end;
    try (eapply tab_id_iff_given_intro;
         [|unfold params_of, forwarded_params; cbn -[is_not_None];
           rewrite params_if_tab_id; reflexivity];
         by simplify_map_eq).
  repeat split.
Qed.

(** C10. [navigate] and [navigate_tab] await the same handler
    [navigate_tool]; [navigate(url)] forwards [{"url": url}] and
    [navigate_tab(url, tab_id)] forwards [{"url": url, "tab_id": tab_id}],
    that is the dict of [navigate] with the ["tab_id"] key always added. *)
Theorem navigate_tab_extends_navigate (url : string) (tab_id : Z) :
  awaited (navigate url)
    = Some (navigate_tool, [context; ArgDict {[ "url" := VStr url ]}]) ∧
  awaited (navigate_tab url tab_id)
    = Some (navigate_tool,
            [context; ArgDict {[ "url" := VStr url; "tab_id" := VInt tab_id ]}]) ∧
  params_of (navigate_tab url tab_id)
    = <["tab_id" := VInt tab_id]> (params_of (navigate url)) ∧
  delete "tab_id" (params_of (navigate_tab url tab_id)) = params_of (navigate url) ∧
  dom (params_of (navigate_tab url tab_id)) = dom (params_of (navigate url)) ∪ {[ "tab_id" ]}.
Proof.
  assert (params_of (navigate_tab url tab_id)
          = <["tab_id" := VInt tab_id]> (params_of (navigate url))) as Hext.
  { unfold params_of, forwarded_params, navigate, navigate_tab. cbn.
    rewrite <- !insert_empty. apply insert_insert_ne. done. }
  split; [done|]. split; [done|].
  split; [done|]. split.
  - rewrite Hext, delete_insert_eq. apply delete_id.
    unfold params_of. cbn. by simplify_map_eq.
  - rewrite Hext, dom_insert_L. set_solver.
Qed.

(** Apart from [new_tab], a wrapper forwards the caller's keyword arguments
    as they are. *)
Lemma supplied_is_forwarded (c : tool_call) :
  tool_name c ≠ "new_tab" →
  params_of (run_tool c) = supplied c.
Proof.
  destruct c; intros Hn; try done;
    unfold params_of, forwarded_params; cbn -[is_not_None];
    rewrite ?params_if_tab_id;
    try match goal with t : option Z |- _ => destruct t end; cbn;
    rewrite ?insert_empty; try done.
Qed.

Ltac key_cases H :=
  repeat first
    [ apply lookup_insert_Some in H as [[<- <-]|[_ H]]
    | apply lookup_singleton_Some in H as [<- <-]
    | rewrite lookup_empty in H; discriminate H ].

Lemma supplied_keys_in_catalogue (c : tool_call) (req : list string) (k : string)
    (v : value) :
  tool_name c ≠ "new_tab" →
  required_args (tool_name c) catalogue = Some req →
  supplied c !! k = Some v →
  k ∈ req ∨ k = "tab_id".
Proof.
  intros Hnew Hreq Hk.
  destruct c; try done; cbn in Hreq; injection Hreq as <-; cbn in Hk |- *;
    try match goal with t : option Z |- _ => destruct t end; cbn in Hk;
    key_cases Hk; set_solver.
Qed.

Lemma new_tab_params (url : option string) :
  params_of (new_tab url) = required_plus_optional [] (call_new_tab url).
Proof.
  unfold required_plus_optional.
  destruct url as [s|]; [|done].
  change (supplied (call_new_tab (Some s))) with (<["url" := VStr s]> (∅ : dict)).
  rewrite insert_empty, map_filter_singleton.
  unfold params_of, forwarded_params, new_tab.
  destruct (truthy (str_arg (Some s))) eqn:Ht; cbn in *.
  - rewrite Ht. rewrite decide_True; [by rewrite insert_empty|]. tauto.
  - rewrite decide_False; [done|]. rewrite Ht.
    intros [H|[H|(_ & _ & H)]]; try done.
    by apply elem_of_nil in H.
Qed.

Lemma required_args_forwarded (c : tool_call) (req : list string) (k : string) :
  required_args (tool_name c) catalogue = Some req →
  k ∈ req →
  is_Some (params_of (run_tool c) !! k).
Proof.
  intros Hreq Hk.
  destruct c; try done; cbn in Hreq; injection Hreq as <-;
    repeat (apply elem_of_cons in Hk as [->|Hk]);
    try (by apply elem_of_nil in Hk);
    unfold params_of, forwarded_params; cbn -[is_not_None];
    rewrite ?params_if_tab_id;
    try match goal with t : option Z |- _ => destruct t end; cbn;
    by simplify_map_eq.
Qed.

(** C2, as stated, fails on [new_tab]: the catalogue requires no argument of
    it, yet [new_tab("https://example.com")] forwards a ["url"] key, which is
    neither a required argument nor [tab_id]. *)
Lemma new_tab_forwards_url_outside_required :
  let c := call_new_tab (Some "https://example.com") in
  required_args (tool_name c) catalogue = Some [] ∧
  params_of (run_tool c) !! "url" = Some (VStr "https://example.com") ∧
  required_plus_tab_id [] c !! "url" = None ∧
  params_of (run_tool c) ≠ required_plus_tab_id [] c.
Proof.
  intros c.
  assert (params_of (run_tool c) !! "url" = Some (VStr "https://example.com"))
    as Hfw by (vm_compute; reflexivity).
  assert (required_plus_tab_id [] c !! "url" = None) as Hcl
    by (vm_compute; reflexivity).
  split; [reflexivity|]. split; [exact Hfw|]. split; [exact Hcl|].
  intros Heq. rewrite Heq, Hcl in Hfw. discriminate Hfw.
Qed.

(** C2, amended. For every operation of the catalogue, the dict forwarded to
    its handler holds exactly the arguments the catalogue requires, under the
    wrappers' names and with the caller's values, plus [tab_id] only when the
    caller supplies one and, for [new_tab], [url] only when the caller
    supplies a non-empty one; [get_tabs] and [screenshot] forward no dict at
    all.  Every operation but [new_tab] forwards no key besides the required
    ones and [tab_id]. *)
Theorem catalogue_params_forwarded (c : tool_call) (req : list string) :
  required_args (tool_name c) catalogue = Some req →
  params_of (run_tool c) = required_plus_optional req c ∧
  (∀ k, k ∈ req → is_Some (params_of (run_tool c) !! k)) ∧
  (tool_name c ≠ "new_tab" → params_of (run_tool c) = required_plus_tab_id req c) ∧
  (tool_name c = "get_tabs" ∨ tool_name c = "screenshot" →
   call_args (run_tool c) = [context]).
Proof.
  intros Hreq. split; [|split; [|split]].
  - destruct (decide (tool_name c = "new_tab")) as [Hnew|Hnew].
    + destruct c; try discriminate Hnew. injection Hreq as <-.
      apply new_tab_params.
    + rewrite supplied_is_forwarded by done.
      symmetry. apply map_filter_id. intros k v Hk. cbn.
      destruct (supplied_keys_in_catalogue c req k v Hnew Hreq Hk); tauto.
  - intros k. by apply required_args_forwarded.
  - intros Hnew. rewrite supplied_is_forwarded by done.
    symmetry. apply map_filter_id. intros k v Hk.
    by apply (supplied_keys_in_catalogue c req k v).
  - destruct c; intros [H|H]; done.
Qed.

Lemma catalogue_params_forwarded_witness :
  params_of (run_tool (call_input_text "e1" "hello" (Some 7)))
  = required_plus_optional ["element_id"; "text"]
      (call_input_text "e1" "hello" (Some 7)).
Proof.
  exact (proj1 (catalogue_params_forwarded
                  (call_input_text "e1" "hello" (Some 7))
                  ["element_id"; "text"] eq_refl)).
Defined.

(** ** The wrappers on concrete requests *)

Example click_element_tab_zero :
  forwarded_params (click_element "e1" (Some 0))
  = Some {[ "element_id" := VStr "e1"; "tab_id" := VInt 0 ]}.
Proof. vm_compute. reflexivity. Qed.

Example new_tab_empty_url : call_args (new_tab (Some "")) = [context; ArgDict ∅].
Proof. reflexivity. Qed.

Example history_logs_the_date :
  logged (query_history_by_date "2025-05-24")
  = ["query_history_by_date tool called with date=2025-05-24"].
Proof. reflexivity. Qed.

(** * Theorems about the bridge *)

(** ** The correlation table *)

Lemma resolve_pending (id : N) (o : Outcome) (t : CorrelationTable) :
  pending (resolve id o t).2 = delete id (pending t).
Proof.
  unfold resolve. destruct (pending t !! id) eqn:Hid; simpl; [done|].
  by rewrite delete_id.
Qed.

Lemma resolve_next_id (id : N) (o : Outcome) (t : CorrelationTable) :
  next_id (resolve id o t).2 = next_id t.
Proof. unfold resolve. by destruct (pending t !! id). Qed.

Lemma resolve_unknown (id : N) (o : Outcome) (t : CorrelationTable) :
  pending t !! id = None →
  resolve id o t
  = (false, mkTable (pending t) (next_id t) (delivered t) (dropped t ++ [id])).
Proof. intros Hid. unfold resolve. by rewrite Hid. Qed.

Lemma resolve_live (id : N) (o : Outcome) (t : CorrelationTable) (pr : PendingRequest) :
  pending t !! id = Some pr →
  resolve id o t
  = (true, mkTable (delete id (pending t)) (next_id t)
                   (delivered t ++ [(id, o)]) (dropped t)).
Proof. intros Hid. unfold resolve. by rewrite Hid. Qed.

Lemma resolve_delivered_mono (id : N) (o : Outcome) (t : CorrelationTable)
    (x : N * Outcome) :
  x ∈ delivered t → x ∈ delivered (resolve id o t).2.
Proof.
  intros Hx. unfold resolve. destruct (pending t !! id); simpl; [|done].
  apply elem_of_app. by left.
Qed.

Lemma resolve_all_cons (id : N) (ids : list N) (o : Outcome) (t : CorrelationTable) :
  resolve_all (id :: ids) o t = resolve_all ids o (resolve id o t).2.
Proof. done. Qed.

Lemma resolve_all_pending (ids : list N) (o : Outcome) (t : CorrelationTable) (k : N) :
  pending (resolve_all ids o t) !! k
  = if decide (k ∈ ids) then None else pending t !! k.
Proof.
  revert t. induction ids as [|id ids IH]; intros t.
  - by rewrite decide_False by apply not_elem_of_nil.
  - rewrite resolve_all_cons, IH, resolve_pending.
    destruct (decide (k ∈ ids)) as [Hin|Hin].
    + rewrite decide_True; [done|]. apply elem_of_cons. by right.
    + destruct (decide (k = id)) as [->|Hne].
      * rewrite lookup_delete_eq. rewrite decide_True; [done|]. apply elem_of_cons. by left.
      * rewrite lookup_delete_ne by done.
        rewrite decide_False; [done|]. rewrite elem_of_cons. tauto.
Qed.

Lemma resolve_all_next_id (ids : list N) (o : Outcome) (t : CorrelationTable) :
  next_id (resolve_all ids o t) = next_id t.
Proof.
  revert t. induction ids as [|id ids IH]; intros t; [done|].
  by rewrite resolve_all_cons, IH, resolve_next_id.
Qed.

Lemma resolve_all_delivered_mono (ids : list N) (o : Outcome) (t : CorrelationTable)
    (x : N * Outcome) :
  x ∈ delivered t → x ∈ delivered (resolve_all ids o t).
Proof.
  revert t. induction ids as [|id ids IH]; intros t Hx; [done|].
  rewrite resolve_all_cons. by apply IH, resolve_delivered_mono.
Qed.

(** Every live entry of the batch gets the batch's outcome. *)
Lemma resolve_all_delivers (ids : list N) (o : Outcome) (t : CorrelationTable) (k : N) :
  k ∈ ids → is_Some (pending t !! k) →
  (k, o) ∈ delivered (resolve_all ids o t).
Proof.
  revert t. induction ids as [|id ids IH]; intros t Hin [pr Hk].
  - by apply elem_of_nil in Hin.
  - rewrite resolve_all_cons.
    destruct (decide (k = id)) as [->|Hne].
    + apply resolve_all_delivered_mono.
      rewrite (resolve_live _ _ _ _ Hk). simpl.
      apply elem_of_app. right. by apply list_elem_of_singleton.
    + apply elem_of_cons in Hin as [?|Hin]; [done|].
      apply IH; [done|]. rewrite resolve_pending, lookup_delete_ne by done.
      by exists pr.
Qed.

Lemma elem_of_entries_where (P : PendingRequest → bool) (t : CorrelationTable) (id : N) :
  id ∈ entries_where P t ↔ ∃ pr, pending t !! id = Some pr ∧ P pr = true.
Proof.
  unfold entries_where. rewrite list_elem_of_fmap. split.
  - intros ([k pr] & -> & Hin). apply list_elem_of_filter in Hin as [HP Hin].
    apply elem_of_map_to_list in Hin. by exists pr.
  - intros (pr & Hid & HP). exists (id, pr). split; [done|].
    apply list_elem_of_filter. split; [done|]. by apply elem_of_map_to_list.
Qed.

(** ** At-most-once resolution as an invariant *)

Lemma table_ok_empty : table_ok empty_table.
Proof.
  split; simpl.
  - constructor.
  - intros id Hid. by apply elem_of_nil in Hid.
  - intros id [pr Hid]. by rewrite lookup_empty in Hid.
  - intros id Hid. by apply elem_of_nil in Hid.
Qed.

Lemma table_ok_resolve (id : N) (o : Outcome) (t : CorrelationTable) :
  table_ok t → table_ok (resolve id o t).2.
Proof.
  intros [Hnodup Hgone Hpend Hdel].
  destruct (pending t !! id) as [pr|] eqn:Hid.
  - rewrite (resolve_live _ _ _ _ Hid). split; simpl.
    + rewrite fmap_app. apply NoDup_app. split; [done|]. split.
      * intros x Hx Hx'. apply list_elem_of_singleton in Hx'. simpl in Hx'. subst x.
        apply Hgone in Hx. congruence.
      * apply NoDup_singleton.
    + intros k Hk. rewrite fmap_app in Hk. apply elem_of_app in Hk as [Hk|Hk].
      * destruct (decide (k = id)) as [->|Hne]; [apply lookup_delete_eq|].
        rewrite lookup_delete_ne by done. by apply Hgone.
      * apply list_elem_of_singleton in Hk. simpl in Hk. subst k.
        apply lookup_delete_eq.
    + intros k [pr' Hk]. apply lookup_delete_Some in Hk as [_ Hk].
      apply Hpend. by exists pr'.
    + intros k Hk. rewrite fmap_app in Hk. apply elem_of_app in Hk as [Hk|Hk].
      * by apply Hdel.
      * apply list_elem_of_singleton in Hk. simpl in Hk. subst k.
        apply Hpend. by exists pr.
  - rewrite (resolve_unknown _ _ _ Hid). by split.
Qed.

Lemma table_ok_resolve_all (ids : list N) (o : Outcome) (t : CorrelationTable) :
  table_ok t → table_ok (resolve_all ids o t).
Proof.
  revert t. induction ids as [|id ids IH]; intros t Hok; [done|].
  rewrite resolve_all_cons. by apply IH, table_ok_resolve.
Qed.

Lemma table_ok_allocate (conn timeout now : N) (t : CorrelationTable) :
  table_ok t → table_ok (allocate conn timeout now t).2.
Proof.
  intros [Hnodup Hgone Hpend Hdel]. split; simpl.
  - done.
  - intros id Hid. rewrite lookup_insert_ne; [by apply Hgone|].
    intros <-. apply Hdel in Hid. lia.
  - intros id [pr Hid]. destruct (decide (id = next_id t)) as [->|Hne]; [lia|].
    rewrite lookup_insert_ne in Hid by done.
    assert (id < next_id t)%N by (apply Hpend; by exists pr). lia.
  - intros id Hid. apply Hdel in Hid. lia.
Qed.

Lemma table_ok_step (b : Bridge) (op : bridge_op) :
  table_ok (table b) → table_ok (table (bridge_step b op)).
Proof.
  intros Hok. destruct op; simpl; try done.
  - by apply table_ok_resolve_all.
  - unfold call. destruct (resolveTarget tab (registry b)); [done|].
    simpl. destruct (writable n (registry b)); simpl.
    + by apply (table_ok_allocate n timeout now).
    + apply table_ok_resolve_all. by apply (table_ok_allocate n timeout now).
  - by apply table_ok_resolve.
  - by apply table_ok_resolve_all.
  - by apply table_ok_resolve_all.
Qed.

Lemma table_ok_run (ops : list bridge_op) : table_ok (table (bridge_run ops)).
Proof.
  unfold bridge_run. induction ops as [|op ops IH] using rev_ind.
  - apply table_ok_empty.
  - rewrite foldl_snoc. by apply table_ok_step.
Qed.

Lemma resolve_twice (id : N) (o o' : Outcome) (t : CorrelationTable) :
  let t1 := (resolve id o t).2 in
  resolve id o' t1
  = (false, mkTable (pending t1) (next_id t1) (delivered t1) (dropped t1 ++ [id])).
Proof.
  intros t1. apply resolve_unknown. unfold t1.
  rewrite resolve_pending. apply lookup_delete_eq.
Qed.

(** An entry swept or cancelled in a batch is delivered the batch's outcome
    and is gone, so a response that arrives afterwards is dropped. *)
Lemma batch_then_late_response (P : PendingRequest → bool) (r : BridgeError)
    (id : N) (pr : PendingRequest) (o : Outcome) (t : CorrelationTable) :
  pending t !! id = Some pr → P pr = true →
  let t' := resolve_all (entries_where P t) (failure r) t in
  (id, failure r) ∈ delivered t' ∧
  pending t' !! id = None ∧
  (resolve id o t').1 = false ∧
  delivered (resolve id o t').2 = delivered t'.
Proof.
  intros Hid HP t'.
  assert (id ∈ entries_where P t) as Hin.
  { apply elem_of_entries_where. by exists pr. }
  assert (pending t' !! id = None) as Hgone.
  { unfold t'. rewrite resolve_all_pending. by rewrite decide_True. }
  split; [|split; [done|]].
  - apply resolve_all_delivers; [done|by exists pr].
  - by rewrite (resolve_unknown _ _ _ Hgone).
Qed.

(** C3. In every state the bridge can reach, [resolve] returns false for an
    id with no live entry -- unknown or already resolved -- and drops the
    response; resolving an entry removes it at once, whether by a response,
    by the deadline sweep or by cancellation, so a second or late response
    for the same id returns false and delivers nothing; and over the whole
    history no correlation id is delivered an outcome twice. *)
Theorem resolve_at_most_once (ops : list bridge_op) (id : N) (o o' : Outcome)
    (now : N) :
  let t := table (bridge_run ops) in
  let t1 := (resolve id o t).2 in
  (pending t !! id = None →
   resolve id o t
   = (false, mkTable (pending t) (next_id t) (delivered t) (dropped t ++ [id]))) ∧
  ((resolve id o t).1 = true ↔ is_Some (pending t !! id)) ∧
  pending t1 !! id = None ∧
  (resolve id o' t1).1 = false ∧
  delivered (resolve id o' t1).2 = delivered t1 ∧
  (∀ pr, pending t !! id = Some pr → (deadline pr ≤ now)%N →
     (id, failure Timeout) ∈ delivered (sweep now t) ∧
     pending (sweep now t) !! id = None ∧
     (resolve id o (sweep now t)).1 = false ∧
     delivered (resolve id o (sweep now t)).2 = delivered (sweep now t)) ∧
  (∀ pr reason, pending t !! id = Some pr →
     (id, failure reason) ∈ delivered (cancelAll (target pr) reason t) ∧
     pending (cancelAll (target pr) reason t) !! id = None ∧
     (resolve id o (cancelAll (target pr) reason t)).1 = false ∧
     delivered (resolve id o (cancelAll (target pr) reason t)).2
       = delivered (cancelAll (target pr) reason t)) ∧
  NoDup (delivered t).*1 ∧
  NoDup (delivered (resolve id o' t1).2).*1 ∧
  (∀ k, k ∈ (delivered t).*1 → pending t !! k = None).
Proof.
  intros t t1.
  pose proof (table_ok_run ops) as Hok. fold t in Hok.
  split; [apply resolve_unknown|].
  split.
  { unfold resolve. destruct (pending t !! id) as [pr|]; simpl.
    - split; [by eexists|done].
    - split; [done|]. by intros [? ?]. }
  split; [unfold t1; rewrite resolve_pending; apply lookup_delete_eq|].
  split; [unfold t1; by rewrite resolve_twice|].
  split; [unfold t1; by rewrite resolve_twice|].
  split.
  { intros pr Hid Hdl.
    apply (batch_then_late_response _ Timeout id pr o t Hid).
    by apply N.leb_le. }
  split.
  { intros pr reason Hid.
    apply (batch_then_late_response _ reason id pr o t Hid).
    apply N.eqb_refl. }
  split; [apply Hok|].
  split; [|apply Hok].
  apply ok_nodup. by do 2 apply table_ok_resolve.
Qed.

Lemma resolve_at_most_once_witness :
  let ops := [do_register 1 {[7]} 0; do_call "screenshot" (Some 7) ∅ 2 0] in
  let t := table (bridge_run ops) in
  pending t !! 0%N = Some (mkPending 0 0 2) ∧
  (0%N, failure Timeout) ∈ delivered (sweep 3 t) ∧
  pending (sweep 3 t) !! 0%N = None ∧
  (resolve 0 (success "late") (sweep 3 t)).1 = false ∧
  delivered (resolve 0 (success "late") (sweep 3 t)).2 = delivered (sweep 3 t).
Proof.
  intros ops t.
  assert (pending t !! 0%N = Some (mkPending 0 0 2)) as Hid
    by (vm_compute; reflexivity).
  split; [exact Hid|].
  refine (proj1 (proj2 (proj2 (proj2 (proj2 (proj2
            (resolve_at_most_once ops 0 (success "late") (success "late") 3))))))
            (mkPending 0 0 2) Hid _).
  vm_compute. discriminate.
Defined.

(** ** The connection registry and the facade *)

Lemma find_owner_none (tab : Z) (cs : list Connection) :
  (∀ c, c ∈ cs → tab ∉ tabs c) → List.find (owns tab) cs = None.
Proof.
  induction cs as [|c cs IH]; intros Hnone; simpl; [done|].
  unfold owns at 1. rewrite bool_decide_eq_false_2.
  - apply IH. intros c' Hc'. apply Hnone, elem_of_cons. by right.
  - apply Hnone, elem_of_cons. by left.
Qed.

Lemma find_owner_some (tab : Z) (cs : list Connection) (c : Connection) :
  List.find (owns tab) cs = Some c → c ∈ cs ∧ tab ∈ tabs c.
Proof.
  intros Hfind. apply List.find_some in Hfind as [Hin Hown].
  split; [by apply list_elem_of_In|].
  unfold owns in Hown. by apply bool_decide_eq_true in Hown.
Qed.

(** C4. For a tab that no registered connection reports owning,
    [resolveTarget] returns the [UnknownTab] failure -- it is a total function
    and names no connection -- and a facade call addressed to that tab fails
    with [UnknownTab] at once, leaving the bridge as it was: no frame is
    written and no correlation entry allocated.  Whenever [resolveTarget]
    does name a connection for a tab, that connection is registered and
    reports the tab. *)
Theorem unknown_tab_fails_without_frame (b : Bridge) (tab : Z) (op : string)
    (args : dict) (timeout now : N) :
  (∀ c, c ∈ conns (registry b) → tab ∉ tabs c) →
  resolveTarget (Some tab) (registry b) = inl UnknownTab ∧
  (∀ id, resolveTarget (Some tab) (registry b) ≠ inr id) ∧
  call op (Some tab) args timeout now b = (inl UnknownTab, b) ∧
  frames (call op (Some tab) args timeout now b).2 = frames b ∧
  table (call op (Some tab) args timeout now b).2 = table b ∧
  (∀ (r : Registry) (t : Z) (id : N),
     resolveTarget (Some t) r = inr id →
     ∃ c, c ∈ conns r ∧ conn_id c = id ∧ t ∈ tabs c).
Proof.
  intros Hnone.
  assert (resolveTarget (Some tab) (registry b) = inl UnknownTab) as Hres.
  { unfold resolveTarget. by rewrite find_owner_none. }
  assert (call op (Some tab) args timeout now b = (inl UnknownTab, b)) as Hcall.
  { unfold call. by rewrite Hres. }
  split; [done|]. split; [by rewrite Hres|].
  split; [done|]. rewrite Hcall. split; [done|]. split; [done|].
  intros r t id Hr. unfold resolveTarget in Hr.
  destruct (List.find (owns t) (conns r)) as [c|] eqn:Hfind; [|done].
  injection Hr as <-. apply find_owner_some in Hfind as [Hin Hown].
  by exists c.
Qed.

Lemma unknown_tab_fails_without_frame_witness :
  let b := bridge_run [do_register 1 {[1; 2]} 0] in
  call "click_element" (Some 7) {[ "elementId" := VStr "e1" ]} 5 0 b
  = (inl UnknownTab, b).
Proof.
  intros b.
  refine (proj1 (proj2 (proj2
            (unknown_tab_fails_without_frame b 7 "click_element"
               {[ "elementId" := VStr "e1" ]} 5 0 _)))).
  intros c Hc. apply list_elem_of_singleton in Hc. subst c.
  vm_compute. intros H. discriminate H.
Defined.

Lemma cancelAll_pending (conn : N) (r : BridgeError) (t : CorrelationTable) (id : N) :
  pending (cancelAll conn r t) !! id
  = match pending t !! id with
    | Some pr => if (target pr =? conn)%N then None else Some pr
    | None => None
    end.
Proof.
  unfold cancelAll. rewrite resolve_all_pending.
  destruct (pending t !! id) as [pr|] eqn:Hid.
  - destruct (target pr =? conn)%N eqn:Htarget.
    + rewrite decide_True; [done|]. apply elem_of_entries_where. by exists pr.
    + rewrite decide_False; [done|]. intros Hin.
      apply elem_of_entries_where in Hin as (pr' & Hid' & Htarget').
      congruence.
  - by destruct (decide _).
Qed.

Lemma remove_conn_gone (id : N) (r : Registry) (c : Connection) :
  c ∈ conns (remove_conn id r) → conn_id c ≠ id.
Proof.
  simpl. intros Hin. apply list_elem_of_In, List.filter_In in Hin as [_ Hc].
  unfold is_conn in Hc. apply negb_true_iff, N.eqb_neq in Hc. done.
Qed.

(** C5. Unregistering (closing) a connection resolves every PendingRequest
    addressed to it with the [ConnectionLost] failure and removes it;
    afterwards no entry of the table targets that connection, the entries of
    the other connections are as before, and the connection is out of the
    registry. *)
Theorem unregister_cancels_pending (b : Bridge) (conn : N) :
  let b' := unregister conn b in
  (∀ id pr, pending (table b) !! id = Some pr → target pr = conn →
     (id, failure ConnectionLost) ∈ delivered (table b') ∧
     pending (table b') !! id = None) ∧
  (∀ id pr, pending (table b') !! id = Some pr → target pr ≠ conn) ∧
  (∀ id pr, pending (table b) !! id = Some pr → target pr ≠ conn →
     pending (table b') !! id = Some pr) ∧
  (∀ c, c ∈ conns (registry b') → conn_id c ≠ conn) ∧
  conn ∈ closed b'.
Proof.
  intros b'. split; [|split; [|split; [|split]]].
  - intros id pr Hid Htarget. simpl. split.
    + apply resolve_all_delivers; [|by exists pr].
      apply elem_of_entries_where. exists pr. split; [done|].
      by apply N.eqb_eq.
    + rewrite cancelAll_pending, Hid.
      by apply N.eqb_eq in Htarget as ->.
  - intros id pr. simpl. rewrite cancelAll_pending.
    destruct (pending (table b) !! id) as [pr'|]; [|done].
    destruct (target pr' =? conn)%N eqn:Htarget; [done|].
    intros [= <-]. by apply N.eqb_neq.
  - intros id pr Hid Htarget. simpl. rewrite cancelAll_pending, Hid.
    by apply N.eqb_neq in Htarget as ->.
  - intros c. apply remove_conn_gone.
  - simpl. apply elem_of_app. right. by apply list_elem_of_singleton.
Qed.

Lemma unregister_cancels_pending_witness :
  let b := bridge_run [do_register 1 {[7]} 0; do_register 2 {[8]} 0;
                       do_call "grab_dom" (Some 7) ∅ 5 1;
                       do_call "screenshot" (Some 8) ∅ 5 1] in
  pending (table b) !! 0%N = Some (mkPending 0 1 6) ∧
  pending (table b) !! 1%N = Some (mkPending 1 1 6) ∧
  (0%N, failure ConnectionLost) ∈ delivered (table (unregister 0 b)) ∧
  pending (table (unregister 0 b)) !! 0%N = None ∧
  pending (table (unregister 0 b)) !! 1%N = Some (mkPending 1 1 6).
Proof.
  intros b.
  assert (pending (table b) !! 0%N = Some (mkPending 0 1 6)) as H0
    by (vm_compute; reflexivity).
  assert (pending (table b) !! 1%N = Some (mkPending 1 1 6)) as H1
    by (vm_compute; reflexivity).
  split; [exact H0|]. split; [exact H1|].
  pose proof (unregister_cancels_pending b 0) as (Hlost & _ & Hkept & _).
  destruct (Hlost 0%N (mkPending 0 1 6) H0 eq_refl) as [Hd Hp].
  split; [exact Hd|]. split; [exact Hp|].
  apply Hkept; [exact H1|]. simpl. discriminate.
Defined.

(** ** Shutdown *)

Lemma close_pending_empty (b : Bridge) : pending (table (close b)) = ∅.
Proof.
  apply map_eq. intros id. simpl. rewrite resolve_all_pending, lookup_empty.
  destruct (decide (id ∈ entries_where (λ _, true) (table b))) as [|Hnot]; [done|].
  destruct (pending (table b) !! id) as [pr|] eqn:Hid; [|done].
  destruct Hnot. apply elem_of_entries_where. by exists pr.
Qed.

Lemma close_delivers_ShuttingDown (b : Bridge) (id : N) :
  is_Some (pending (table b) !! id) →
  (id, failure ShuttingDown) ∈ delivered (table (close b)).
Proof.
  intros [pr Hid]. simpl. apply resolve_all_delivers; [|by exists pr].
  apply elem_of_entries_where. by exists pr.
Qed.

Lemma cleanup_unfold (st : Process) :
  cleanup st
  = mkProcess (close (ctx st)) (server_close <$> ws_server st)
              (records st ++ ["Shutting down servers..."; "Shutdown complete"]).
Proof.
  unfold cleanup, cleanup_body, run_body. simpl.
  unfold close_ws_server. simpl.
  destruct (ws_server st) as [srv|] eqn:Hsrv; simpl; rewrite ?Hsrv;
    unfold logger_info; simpl; rewrite ?Hsrv, <- ?app_assoc; reflexivity.
Qed.

Lemma cleanup_with_spec (st : Process) :
  cleanup_with (λ b, (Done tt, close b)) (λ _ s, (Done tt, server_close s)) st
  = (Done tt, cleanup st).
Proof.
  rewrite cleanup_unfold. unfold cleanup_with, logger_info. simpl.
  destruct (ws_server st) as [srv|]; simpl; by rewrite <- app_assoc.
Qed.

(** C6. [cleanup] first awaits [context.close()], which closes every
    extension connection and resolves every pending correlation entry with
    [ShuttingDown] while the server is left as it was, and only then closes
    the WebSocket server it holds: the server object is kept and its
    listening socket released; at no point of [cleanup] has the server
    changed while a connection or a pending entry remains.  The order does
    not rest on what the two calls do: whatever [context.close()] and the
    server's close do, the server is closed in the bridge state that
    [context.close()] returned, and when [context.close()] raises the
    server is not touched and the exception leaves [cleanup]. *)
Theorem cleanup_closes_connections_before_listener
    (context_close_impl : Bridge → completion unit * Bridge)
    (ws_server_close_impl : Bridge → Server → completion unit * Server)
    (st : Process) :
  let mid := run_body (take 2 cleanup_body) st in
  let general := cleanup_with context_close_impl ws_server_close_impl st in
  ws_server mid = ws_server st ∧
  conns (registry (ctx mid)) = [] ∧
  pending (table (ctx mid)) = ∅ ∧
  (∀ id, is_Some (pending (table (ctx st)) !! id) →
     (id, failure ShuttingDown) ∈ delivered (table (ctx mid))) ∧
  (∀ c, c ∈ conns (registry (ctx st)) → conn_id c ∈ closed (ctx mid)) ∧
  cleanup st = logger_info "Shutdown complete" (close_ws_server mid) ∧
  ctx (cleanup st) = ctx mid ∧
  ws_server (cleanup st) = server_close <$> ws_server st ∧
  (∀ srv, ws_server (cleanup st) = Some srv → listening srv = false) ∧
  (∀ n, let s := run_body (take n cleanup_body) st in
        ws_server s = ws_server st ∨
        (conns (registry (ctx s)) = [] ∧ pending (table (ctx s)) = ∅)) ∧
  cleanup_with (λ b, (Done tt, close b)) (λ _ s, (Done tt, server_close s)) st
    = (Done tt, cleanup st) ∧
  (∀ e b, context_close_impl (ctx st) = (Raise e, b) →
     general
     = (Raise e,
        mkProcess b (ws_server st)
          (records st ++ ["Shutting down servers..."]))) ∧
  (∀ u b srv, context_close_impl (ctx st) = (Done u, b) →
     ws_server st = Some srv →
     ctx general.2 = b ∧
     ws_server general.2 = Some (ws_server_close_impl b srv).2 ∧
     general.1 = (ws_server_close_impl b srv).1) ∧
  (∀ u b, context_close_impl (ctx st) = (Done u, b) →
     ws_server st = None →
     general
     = (Done tt,
        mkProcess b None
          (records st ++ ["Shutting down servers..."; "Shutdown complete"]))).
Proof.
  intros mid general.
  assert (pending (table (ctx mid)) = ∅) as Hempty by apply close_pending_empty.
  assert (ctx (cleanup st) = ctx mid) as Hctx.
  { unfold cleanup, cleanup_body, run_body. simpl. unfold close_ws_server. simpl.
    by destruct (ws_server st). }
  assert (ws_server (cleanup st) = server_close <$> ws_server st) as Hsrv.
  { unfold cleanup, cleanup_body, run_body. simpl. unfold close_ws_server. simpl.
    destruct (ws_server st) as [srv|] eqn:Hws; simpl; by rewrite ?Hws. }
  split; [done|]. split; [done|]. split; [done|]. split.
  { intros id Hid. by apply close_delivers_ShuttingDown. }
  split.
  { intros c Hc. simpl. apply elem_of_app. right. by apply list_elem_of_fmap_2. }
  split; [done|]. split; [done|]. split; [done|]. split.
  { intros srv. rewrite Hsrv. destruct (ws_server st); simpl; [|done].
    by intros [= <-]. }
  split.
  { intros n s.
    destruct n as [|[|n]]; [by left|by left|].
    right.
    assert (ctx s = ctx mid) as ->; [|done].
    unfold s, mid, cleanup_body, run_body.
    destruct n as [|[|n]]; simpl; unfold close_ws_server; simpl;
      destruct (ws_server st) as [srv|] eqn:Hws; simpl;
      rewrite ?Hws, ?take_nil; done. }
  split; [apply cleanup_with_spec|].
  unfold general, cleanup_with. simpl.
  split; [|split].
  - intros e b Hclose. by rewrite Hclose.
  - intros u b srv Hclose Hws. rewrite Hclose, Hws.
    by destruct (ws_server_close_impl b srv) as [[[]|?] ?].
  - intros u b Hclose Hws. rewrite Hclose, Hws. unfold logger_info. simpl.
    by rewrite <- app_assoc.
Qed.

Lemma cleanup_closes_connections_before_listener_witness :
  let b := bridge_run [do_register 1 {[7]} 0; do_call "grab_dom" (Some 7) ∅ 5 1] in
  let st := mkProcess b (Some (mkServer true)) [] in
  let failing := λ b : Bridge, (Raise (A := unit) (Exception "boom"), b) in
  let closing := λ (_ : Bridge) (s : Server), (Done tt, server_close s) in
  ws_server (run_body (take 2 cleanup_body) st) = Some (mkServer true) ∧
  (0%N, failure ShuttingDown)
    ∈ delivered (table (ctx (run_body (take 2 cleanup_body) st))) ∧
  ws_server (cleanup st) = Some (mkServer false) ∧
  cleanup_with failing closing st
  = (Raise (Exception "boom"),
     mkProcess b (Some (mkServer true)) ["Shutting down servers..."]).
Proof.
  intros b st failing closing.
  pose proof (cleanup_closes_connections_before_listener failing closing st)
    as (Hws & _ & _ & Hdel & _ & _ & _ & Hrel & _ & _ & _ & Hraise & _).
  split; [exact Hws|].
  split; [apply Hdel; exists (mkPending 0 1 6); vm_compute; reflexivity|].
  split; [exact Hrel|].
  exact (Hraise (Exception "boom") b eq_refl).
Defined.

(** ** The bridge on concrete histories *)

(** Two calls for one tab answered in reverse order: each caller gets its own
    result, and a repeated response is dropped. *)
Example responses_out_of_order :
  let b := bridge_run [do_register 1 {[3]} 0;
                       do_call "screenshot" (Some 3) ∅ 2 0;
                       do_call "grab_dom" (Some 3) ∅ 2 0;
                       do_response 1 (success "dom");
                       do_response 0 (success "png");
                       do_response 0 (success "again")] in
  delivered (table b) = [(1%N, success "dom"); (0%N, success "png")] ∧
  dropped (table b) = [0%N] ∧
  pending (table b) = ∅ ∧
  (frame_op <$> (frames b).*2) = ["screenshot"; "grab_dom"].
Proof. vm_compute. repeat split. Qed.

(** A call the extension never answers: [Timeout] at the deadline, the entry
    gone, the late response dropped. *)
Example screenshot_times_out :
  let b := bridge_run [do_register 1 {[3]} 0;
                       do_call "screenshot" (Some 3) ∅ 2 0;
                       do_tick 1; do_tick 2;
                       do_response 0 (success "late")] in
  delivered (table b) = [(0%N, failure Timeout)] ∧
  dropped (table b) = [0%N] ∧
  pending (table b) = ∅.
Proof. vm_compute. repeat split. Qed.

(** * Further properties of the tools *)

(** The keys under which a wrapper forwards a [str]. *)
Definition str_keys : list string :=
  ["url"; "query"; "element_id"; "text"; "keys"; "message"; "date"].

(** X1. Whatever a tool forwards is typed and never [None]: the value under
    ["tab_id"] is an [int], the value under every other key is a [str] and
    the key is one of the seven string keys, and the ["url"] that [new_tab]
    forwards is a non-empty [str]. *)
Theorem forwarded_values_typed (c : tool_call) (k : string) (v : value) :
  params_of (run_tool c) !! k = Some v →
  v ≠ VNone ∧
  (k = "tab_id" → ∃ n, v = VInt n) ∧
  (k ≠ "tab_id" → ∃ s, v = VStr s ∧ k ∈ str_keys) ∧
  (tool_name c = "new_tab" → ∃ s, v = VStr s ∧ s ≠ "").
Proof.
  intros Hk.
  destruct (decide (tool_name c = "new_tab")) as [Hnew|Hnew].
  - destruct c; try discriminate Hnew.
    unfold params_of, forwarded_params, run_tool, new_tab in Hk.
    destruct url as [s|]; cbn in Hk.
    + destruct (String.eqb_spec s "") as [->|Hs]; cbn in Hk.
      * rewrite lookup_empty in Hk. discriminate Hk.
      * apply lookup_insert_Some in Hk as [[<- <-]|[_ Hk]].
        -- repeat split; try done; try (intros _; by exists s).
           intros _. exists s. split; [done|]. unfold str_keys. set_solver.
        -- rewrite lookup_empty in Hk. discriminate Hk.
    + rewrite lookup_empty in Hk. discriminate Hk.
  - rewrite supplied_is_forwarded in Hk by done.
    destruct c; try done; cbn in Hk;
      try match goal with t : option Z |- _ => destruct t end; cbn in Hk;
      key_cases Hk.
    all: split; [done|].
    all: split; [intros ?; try done; by eexists|].
    all: split; [|done].
    all: intros ?; try done.
    all: eexists; split; [done|].
    all: unfold str_keys; set_solver.
Qed.

Lemma forwarded_values_typed_witness :
  ∃ n, VInt 0 = VInt n.
Proof.
  refine (proj1 (proj2 (forwarded_values_typed
            (call_close_tab (Some 0)) "tab_id" (VInt 0) _)) eq_refl).
  vm_compute. reflexivity.
Defined.

Ltac read_keys H :=
  pose proof (f_equal (λ m : dict, m !! "url") H);
  pose proof (f_equal (λ m : dict, m !! "tab_id") H);
  pose proof (f_equal (λ m : dict, m !! "query") H);
  pose proof (f_equal (λ m : dict, m !! "element_id") H);
  pose proof (f_equal (λ m : dict, m !! "text") H);
  pose proof (f_equal (λ m : dict, m !! "keys") H);
  pose proof (f_equal (λ m : dict, m !! "message") H);
  pose proof (f_equal (λ m : dict, m !! "date") H);
  clear H; cbn beta in *; simplify_map_eq.

Lemma supplied_inj (c c' : tool_call) :
  tool_name c = tool_name c' → supplied c = supplied c' → c = c'.
Proof.
  intros Hname Hs.
  destruct c, c'; try discriminate Hname; try reflexivity; cbn in Hs;
    repeat match goal with t : option _ |- _ => destruct t end; cbn in Hs;
    read_keys Hs; try reflexivity.
Qed.

Lemma call_args_params {A} (p p' : prog A) :
  call_args p = call_args p' → params_of p = params_of p'.
Proof.
  unfold call_args, params_of.
  destruct (forwarded_params p), (forwarded_params p'); simpl; intros [=];
    congruence.
Qed.

Lemma new_tab_params_cases (url : option string) :
  params_of (new_tab url)
  = if truthy (str_arg url) then {[ "url" := str_arg url ]} else ∅.
Proof.
  unfold params_of, forwarded_params, new_tab.
  destruct (truthy (str_arg url)); cbn; [by rewrite insert_empty|done].
Qed.

(** X2. The handler can read the caller's arguments back: two requests to the
    same tool that reach the handler with the same positional arguments are
    the same request, except that [new_tab] cannot tell its falsy urls
    ([None] and [""]) apart. *)
Theorem same_call_same_arguments (c c' : tool_call) :
  tool_name c = tool_name c' →
  call_args (run_tool c) = call_args (run_tool c') →
  c = c' ∨
  ∃ url url', c = call_new_tab url ∧ c' = call_new_tab url' ∧
              truthy (str_arg url) = false ∧ truthy (str_arg url') = false.
Proof.
  intros Hname Hargs. apply call_args_params in Hargs.
  destruct (decide (tool_name c = "new_tab")) as [Hnew|Hnew].
  - destruct c as [| | | | |url| | | | | | | | | |]; try discriminate Hnew.
    destruct c' as [| | | | |url'| | | | | | | | | |]; try discriminate Hname.
    cbn [run_tool] in Hargs. rewrite !new_tab_params_cases in Hargs.
    destruct (truthy (str_arg url)) eqn:Ht, (truthy (str_arg url')) eqn:Ht'.
    + left. apply truthy_str_arg in Ht as (s & -> & _).
      apply truthy_str_arg in Ht' as (s' & -> & _).
      cbn in Hargs. apply (f_equal (λ m : dict, m !! "url")) in Hargs.
      rewrite !lookup_singleton_eq in Hargs. congruence.
    + apply (f_equal (λ m : dict, m !! "url")) in Hargs.
      rewrite lookup_singleton_eq, lookup_empty in Hargs. discriminate Hargs.
    + apply (f_equal (λ m : dict, m !! "url")) in Hargs.
      rewrite lookup_singleton_eq, lookup_empty in Hargs. discriminate Hargs.
    + right. by exists url, url'.
  - left. apply supplied_inj; [done|].
    rewrite <- !supplied_is_forwarded; [done| |done]. by rewrite <- Hname.
Qed.

Lemma same_call_same_arguments_witness :
  call_new_tab None = call_new_tab (Some "") ∨
  ∃ url url', call_new_tab None = call_new_tab url ∧
              call_new_tab (Some "") = call_new_tab url' ∧
              truthy (str_arg url) = false ∧ truthy (str_arg url') = false.
Proof.
  apply (same_call_same_arguments (call_new_tab None) (call_new_tab (Some ""))).
  - reflexivity.
  - reflexivity.
Defined.

(** X3. The tools are wired by name: each one awaits the handler imported
    under its own name followed by [_tool], except [navigate_tab], which
    awaits [navigate_tool]; and every one of the fifteen imported handlers is
    awaited by some tool. *)
Theorem tools_wired_by_name (c : tool_call) (h : handler) :
  handler_name <$> (fst <$> awaited (run_tool c))
  = Some (if decide (tool_name c = "navigate_tab") then "navigate_tool"
          else tool_name c +:+ "_tool") ∧
  ∃ c', fst <$> awaited (run_tool c') = Some h.
Proof.
  split.
  - destruct c; reflexivity.
  - destruct h;
      [ exists call_get_tabs | exists call_screenshot | exists (call_navigate "")
      | exists (call_select_tab 0) | exists (call_new_tab None)
      | exists (call_close_tab None) | exists (call_search_google "" None)
      | exists (call_click_element "" None) | exists (call_input_text "" "" None)
      | exists (call_send_keys "" None) | exists (call_grab_dom None)
      | exists (call_capture_with_highlights None)
      | exists (call_add_assistant_message "")
      | exists (call_query_history_by_date "")
      | exists (call_query_interests_by_date "") ];
      reflexivity.
Qed.

(** X4. Of the sixteen tools only [query_history_by_date] writes a log
    record of its own -- one, carrying the date as given -- so every other
    tool hands the caller's state to its handler untouched, log included. *)
Theorem only_history_query_logs (Ext : Type) (env : handlers Ext)
    (c : tool_call) (w : World Ext) :
  logged (run_tool c)
  = match c with
    | call_query_history_by_date date =>
        ["query_history_by_date tool called with date=" +:+ date]
    | _ => []
    end ∧
  exec env (run_tool c) w
  = env (handler_of c) (call_args (run_tool c))
        match c with
        | call_query_history_by_date date =>
            mkWorld (log w ++ ["query_history_by_date tool called with date=" +:+ date])
                    (ext w)
        | _ => w
        end.
Proof.
  assert (logged (run_tool c)
          = match c with
            | call_query_history_by_date date =>
                ["query_history_by_date tool called with date=" +:+ date]
            | _ => []
            end) as Hlog.
  { destruct c; cbn -[truthy is_not_None]; reflexivity. }
  split; [exact Hlog|].
  rewrite (forwards_exec Ext env _ _ _ w (run_tool_forwards c)), Hlog.
  by destruct c.
Qed.

(** X5. No tool invents or renames an argument, and only [new_tab] drops
    one: under every key the forwarded dict holds what the caller supplied
    under that key, except that [new_tab] leaves out a supplied empty [url]. *)
Theorem only_new_tab_drops_an_argument (c : tool_call) (k : string) :
  params_of (run_tool c) !! k
  = if decide (tool_name c = "new_tab" ∧ supplied c !! k = Some (VStr ""))
    then None else supplied c !! k.
Proof.
  destruct (decide (tool_name c = "new_tab")) as [Hnew|Hnew].
  - destruct c as [| | | | |url| | | | | | | | | |]; try discriminate Hnew.
    cbn [run_tool]. rewrite new_tab_params_cases.
    destruct url as [s|]; cbn.
    + destruct (String.eqb_spec s "") as [->|Hs]; cbn.
      * rewrite lookup_empty. destruct (decide _) as [|Hnot]; [done|].
        destruct (decide (k = "url")) as [->|Hk].
        -- destruct Hnot. split; [done|]. apply lookup_insert_eq.
        -- by rewrite lookup_insert_ne, lookup_empty.
      * rewrite decide_False; [by rewrite insert_empty|].
        intros [_ Hk]. apply lookup_insert_Some in Hk as [[_ [= ->]]|[_ Hk]]; [done|].
        by rewrite lookup_empty in Hk.
    + rewrite decide_False; [done|]. intros [_ Hk]. by rewrite lookup_empty in Hk.
  - rewrite supplied_is_forwarded by done.
    rewrite decide_False; [done|]. by intros [? _].
Qed.

(** * Properties of start-up and the main block *)

Section MainFacts.
Variable start : Bridge → completion Server * Bridge.
Variable serve : Process → completion unit * Process.

Lemma main_unfold (st : Process) :
  main start serve st
  = ((main_except (main_try start serve st).1 (main_try start serve st).2).1,
     cleanup (main_except (main_try start serve st).1 (main_try start serve st).2).2).
Proof.
  unfold main. destruct (main_try start serve st) as [r st1]. simpl.
  by destruct (main_except r st1).
Qed.

(** X7. When [start_websocket_server] raises an [Exception] and no server
    was set before, the main block never serves: the failure is logged twice
    (by [start_background_services], then as a fatal error), the context is
    still closed, no server is closed since [ws_server] is still [None], and
    the block ends normally. *)
Theorem main_start_failure (st : Process) (msg : string) (b : Bridge) :
  ws_server st = None →
  start (ctx st) = (Raise (Exception msg), b) →
  main start serve st
  = (Done tt,
     mkProcess (close b) None
       (records st ++ ["Starting Dex MCP Server...";
                       "Failed to start WebSocket server: " +:+ msg;
                       "Fatal error: " +:+ msg;
                       "Shutting down servers...";
                       "Shutdown complete"])).
Proof.
  intros Hnone Hstart.
  rewrite main_unfold.
  assert (main_try start serve st
          = (Raise (Exception msg),
             mkProcess b None
               (records st ++ ["Starting Dex MCP Server...";
                               "Failed to start WebSocket server: " +:+ msg])))
    as ->.
  { unfold main_try, start_background_services. simpl. rewrite Hstart. simpl.
    unfold logger_error. simpl. rewrite Hnone. by rewrite <- app_assoc. }
  simpl. rewrite cleanup_unfold. simpl. f_equal. f_equal.
  by rewrite <- !app_assoc.
Qed.

End MainFacts.

Lemma main_start_failure_witness :
  let start := λ b : Bridge, (Raise (A := Server) (Exception "port in use"), b) in
  let serve := λ st : Process, (Done tt, st) in
  main start serve initial_process
  = (Done tt,
     mkProcess (close empty_bridge) None
       ["Starting Dex MCP Server...";
        "Failed to start WebSocket server: port in use";
        "Fatal error: port in use";
        "Shutting down servers...";
        "Shutdown complete"]).
Proof.
  intros start serve.
  exact (main_start_failure start serve initial_process "port in use"
           empty_bridge eq_refl eq_refl).
Defined.
